(** * Pool event handlers of [airflow/utils/sqlalchemy.py]

    A shallow embedding of [setup_event_handlers]: the three listeners
    [ping_connection] ("engine_connect"), [connect] ("connect") and
    [checkout] ("checkout"), together with the properties of the
    connection-pool guard that they implement.

    Numbers of seconds are exact rationals ([Q]): the Python floats are read
    as the real numbers they stand for.  A rational is finite, so a setting
    of [inf] or [nan] is outside the model, and the rounding of binary64
    arithmetic is not modelled: what is proved about the size of the backoff
    is limited to bounds that rounding to nearest, being monotone, keeps.
    [float_backoff_update] gives the backoff update in binary64 itself, to
    show where the two part. *)

From Stdlib Require Import QArith Qminmax Qround Lqa Lia Ascii PrimFloat.
From stdpp Require Import base strings gmap pretty.

Local Open Scope Q_scope.

(** ** Data model *)

(** [exc.DBAPIError]: the handler reads [err.connection_invalidated]; the
    wrapped driver error is kept as its text. *)
Record DBAPIError := mkDBAPIError {
  connection_invalidated : bool;
  orig : string
}.

(** What can leave a handler through [raise]. *)
Inductive Exception :=
| ExcDBAPI (err : DBAPIError)        (* exc.DBAPIError, re-raised as caught *)
| ExcOther (what : string)           (* not caught by [except exc.DBAPIError] *)
| ExcSleepLength (secs : Q)          (* time.sleep refusing a negative length *)
| ExcSleepOverflow (secs : Q)        (* time.sleep refusing too large a length *)
| ExcDisconnection (msg : string)    (* exc.DisconnectionError *)
| ExcKeyError (key : string).        (* info['pid'] on a record never stamped *)

(** The three calls to [log]; the arguments are those given to the format
    string. *)
Inductive LogRecord :=
| LogReestablish (timeout : Q) (err : DBAPIError)
    (* log.error("Failed to re-establish DB connection within %s secs: %s",
                 reconnect_timeout_seconds, err) *)
| LogInvalidated
    (* log.warning("DB connection invalidated. Reconnecting...") *)
| LogUnknown (err : DBAPIError).
    (* log.error("Unknown database connection error. Not retrying: %s", err) *)

(** The part of a SQLAlchemy [Connection] that [ping_connection] touches. *)
Record Connection := mkConnection {
  should_close_with_result : bool
}.

(** What [connection.scalar(select([1]))] can do. *)
Inductive ProbeResult :=
| ProbeOk
| ProbeDBAPIError (err : DBAPIError)
| ProbeRaises (what : string).

(** Everything the handler does to the outside, in the order it happens.
    A probe records the value of [should_close_with_result] it ran under. *)
Inductive Event :=
| EvProbe (flag : bool) (res : ProbeResult)
| EvRandom (u : Q)
| EvSleep (secs : Q)
| EvLog (r : LogRecord).

(** The outside world of one acquisition.  [now] is what [time.time()]
    returns; it moves when a probe runs (by the scripted duration of that
    probe, which also accounts for anything else that takes time before the
    next reading of the clock) and when the handler sleeps.  The [i]-th
    probe and the [i]-th call of [random.random()] are scripted. *)
Record World := mkWorld {
  now : Q;
  probe_script : nat -> Q * ProbeResult;
  probes_done : nat;
  random_script : nat -> Q;
  randoms_done : nat;
  trace : list Event
}.

(** Arguments of [setup_event_handlers] other than the engine. *)
Record Config := mkConfig {
  reconnect_timeout_seconds : Q;
  initial_backoff_seconds : Q;
  max_backoff_seconds : Q
}.

(** The defaults of the signature: [initial_backoff_seconds=0.2],
    [max_backoff_seconds=120]. *)
Definition default_config (timeout : Q) : Config :=
  mkConfig timeout (2 # 10) 120.

(** ** The primitives the handler calls *)

Definition record_event (e : Event) (w : World) : World :=
  mkWorld (now w) (probe_script w) (probes_done w)
          (random_script w) (randoms_done w) (trace w ++ [e]).

(** [time.time()] *)
Definition time_time (w : World) : Q := now w.

(** [connection.scalar(select([1]))] *)
Definition scalar (conn : Connection) (w : World) : ProbeResult * World :=
  let '(took, res) := probe_script w (probes_done w) in
  (res,
   mkWorld (now w + took) (probe_script w) (S (probes_done w))
           (random_script w) (randoms_done w)
           (trace w ++ [EvProbe (should_close_with_result conn) res])).

(** [random.random()] *)
Definition random_random (w : World) : Q * World :=
  let u := random_script w (randoms_done w) in
  (u,
   mkWorld (now w) (probe_script w) (probes_done w)
           (random_script w) (S (randoms_done w))
           (trace w ++ [EvRandom u])).

(** The interpreter (CPython 3) keeps the length of a sleep as a signed
    64-bit number of nanoseconds: a length of [2^63] ns or more does not
    fit. *)
Definition sleep_limit : Q := 9223372036854775808 # 1000000000.

(** [time.sleep(secs)]: a negative length is refused with [ValueError], a
    length that does not fit with [OverflowError], both before any time
    passes; otherwise the clock moves on by [secs].  A sleep that lasts
    longer than asked is accounted to the probe that follows. *)
Definition time_sleep (secs : Q) (w : World) : Exception + World :=
  if Qlt_le_dec secs 0 then inl (ExcSleepLength secs)
  else if Qlt_le_dec secs sleep_limit then
    inr (mkWorld (now w + secs) (probe_script w) (probes_done w)
                 (random_script w) (randoms_done w)
                 (trace w ++ [EvSleep secs]))
  else inl (ExcSleepOverflow secs).

(** [log.error(...)], [log.warning(...)] *)
Definition log (r : LogRecord) (w : World) : World := record_event (EvLog r) w.

(** ** [ping_connection] *)

(** The local variables of the handler that live across iterations. *)
Record Locals := mkLocals {
  start : Q;
  backoff : Q;
  save_should_close_with_result : bool
}.

(** How control leaves the body of [while True]. *)
Inductive Signal :=
| SigBreak
| SigContinue (backoff' : Q)
| SigRaise (e : Exception).

Definition set_should_close_with_result (b : bool) (conn : Connection)
  : Connection := mkConnection b.

(** The [try] ... [except exc.DBAPIError as err] part of the loop body
    (lines 60-89). *)
Definition try_except (cfg : Config) (l : Locals) (conn : Connection)
    (w : World) : Signal * World :=
  let '(res, w1) := scalar conn w in
  match res with
  | ProbeOk => (SigBreak, w1)
  | ProbeRaises what => (SigRaise (ExcOther what), w1)
  | ProbeDBAPIError err =>
      if Qle_bool (reconnect_timeout_seconds cfg) (time_time w1 - start l)
      then
        (SigRaise (ExcDBAPI err),
         log (LogReestablish (reconnect_timeout_seconds cfg) err) w1)
      else if connection_invalidated err then
        let w2 := log LogInvalidated w1 in
        let '(u, w3) := random_random w2 in
        let backoff' := backoff l + backoff l * u in
        match time_sleep (Qmin backoff' (max_backoff_seconds cfg)) w3 with
        | inl e => (SigRaise e, w3)
        | inr w4 => (SigContinue backoff', w4)
        end
      else
        (SigRaise (ExcDBAPI err), log (LogUnknown err) w1)
  end.

(** One pass through the body of [while True] (lines 58-92): the flag is
    switched off, the [try] block runs, and [finally] puts the saved flag
    back whichever way the block was left. *)
Definition iteration (cfg : Config) (l : Locals) (conn : Connection)
    (w : World) : Signal * Connection * World :=
  let conn1 := set_should_close_with_result false conn in
  let '(sig, w1) := try_except cfg l conn1 w in
  (sig,
   set_should_close_with_result (save_should_close_with_result l) conn1,
   w1).

(** How a call of the handler ends.  [OutOfFuel] is not an outcome of the
    Python code: it marks a run cut off after the given number of passes. *)
Inductive Outcome :=
| Returned
| Raised (e : Exception)
| OutOfFuel.

(** [while True: ...], cut off after [fuel] passes. *)
Fixpoint loop (cfg : Config) (fuel : nat) (l : Locals) (conn : Connection)
    (w : World) : Outcome * Connection * World :=
  match fuel with
  | O => (OutOfFuel, conn, w)
  | S fuel' =>
      match iteration cfg l conn w with
      | (SigBreak, conn', w') => (Returned, conn', w')
      | (SigRaise e, conn', w') => (Raised e, conn', w')
      | (SigContinue b, conn', w') =>
          loop cfg fuel'
               (mkLocals (start l) b (save_should_close_with_result l))
               conn' w'
      end
  end.

(** Lines 50-55: [start = time.time()], [backoff = initial_backoff_seconds],
    [save_should_close_with_result = connection.should_close_with_result]. *)
Definition entry_locals (cfg : Config) (conn : Connection) (w : World)
  : Locals :=
  mkLocals (time_time w) (initial_backoff_seconds cfg)
           (should_close_with_result conn).

(** The "engine_connect" listener. *)
Definition ping_connection (cfg : Config) (fuel : nat) (conn : Connection)
    (branch : bool) (w : World) : Outcome * Connection * World :=
  if branch then (Returned, conn, w)
  else loop cfg fuel (entry_locals cfg conn w) conn w.

Definition outcome_of (r : Outcome * Connection * World) : Outcome := r.1.1.
Definition connection_of (r : Outcome * Connection * World) : Connection :=
  r.1.2.
Definition world_of (r : Outcome * Connection * World) : World := r.2.

(** The state of the loop after [n] passes that all ended in [continue];
    [None] when the loop was left before. *)
Fixpoint passes (cfg : Config) (n : nat) (l : Locals) (conn : Connection)
    (w : World) : option (Locals * Connection * World) :=
  match n with
  | O => Some (l, conn, w)
  | S n' =>
      match iteration cfg l conn w with
      | (SigContinue b, conn', w') =>
          passes cfg n'
                 (mkLocals (start l) b (save_should_close_with_result l))
                 conn' w'
      | _ => None
      end
  end.

(** ** [connect] and [checkout] *)

(** A raw DB-API connection is opaque to the handlers. *)
Definition DBAPIConnection := nat.

(** [_ConnectionRecord]: the [info] dictionary and the live handle. *)
Record ConnectionRecord := mkRecord {
  info : gmap string Z;
  record_connection : option DBAPIConnection
}.

(** [_ConnectionFairy], the proxy being handed to the caller. *)
Record ConnectionProxy := mkProxy {
  proxy_connection : option DBAPIConnection
}.

(** The "connect" listener; [pid] is what [os.getpid()] returns. *)
Definition connect (pid : Z) (dbapi_connection : DBAPIConnection)
    (connection_record : ConnectionRecord) : ConnectionRecord :=
  mkRecord (<["pid" := pid]> (info connection_record))
           (record_connection connection_record).

(** ["Connection record belongs to pid {}, attempting to check out in
    pid {}".format(owner, pid)] *)
Definition disconnection_message (owner pid : Z) : string :=
  ("Connection record belongs to pid " +:+ pretty owner)
  +:+ (", attempting to check out in pid " +:+ pretty pid).

(** The "checkout" listener; [pid] is what [os.getpid()] returns.  The
    result is the exception raised, if any, and the two objects as the
    handler leaves them. *)
Definition checkout (pid : Z) (dbapi_connection : DBAPIConnection)
    (connection_record : ConnectionRecord)
    (connection_proxy : ConnectionProxy)
  : option Exception * ConnectionRecord * ConnectionProxy :=
  match info connection_record !! "pid" with
  | None => (Some (ExcKeyError "pid"), connection_record, connection_proxy)
  | Some owner =>
      if bool_decide (owner ≠ pid) then
        (Some (ExcDisconnection (disconnection_message owner pid)),
         mkRecord (info connection_record) None,
         mkProxy None)
      else (None, connection_record, connection_proxy)
  end.

(** ** The handlers as reactions of one pool slot *)

(** The objects of one pooled connection that the listeners are given. *)
Record Slot := mkSlot {
  slot_record : ConnectionRecord;
  slot_proxy : ConnectionProxy;
  slot_connection : Connection
}.

(** The notifications the pool sends after a connection was established,
    each with what the environment supplies for it. *)
Inductive Notification :=
| OnCheckout (pid : Z) (dbapi_connection : DBAPIConnection)
| OnEngineConnect (cfg : Config) (fuel : nat) (branch : bool) (w : World).

(** The slot as the listener leaves it, whether it returned or raised. *)
Definition react (n : Notification) (s : Slot) : Slot :=
  match n with
  | OnCheckout pid dbapi =>
      let '(_, r, p) := checkout pid dbapi (slot_record s) (slot_proxy s) in
      mkSlot r p (slot_connection s)
  | OnEngineConnect cfg fuel branch w =>
      let '(_, c, _) := ping_connection cfg fuel (slot_connection s) branch w in
      mkSlot (slot_record s) (slot_proxy s) c
  end.

Definition react_all (ns : list Notification) (s : Slot) : Slot :=
  foldl (fun s n => react n s) s ns.

(** ** Observations on a run *)

Definition is_sleep (e : Event) : bool :=
  match e with EvSleep _ => true | _ => false end.

Definition is_probe (e : Event) : bool :=
  match e with EvProbe _ _ => true | _ => false end.

Definition sleeps (tr : list Event) : list Event := List.filter is_sleep tr.
Definition probes (tr : list Event) : list Event := List.filter is_probe tr.

(** Every probe of the trace ran with the flag off. *)
Definition probe_flag_off (e : Event) : bool :=
  match e with EvProbe flag _ => negb flag | _ => true end.

(** A world that has not yet been asked anything. *)
Definition fresh_world (t0 : Q) (ps : nat -> Q * ProbeResult)
    (rs : nat -> Q) : World :=
  mkWorld t0 ps 0 rs 0 [].

(** The world right after a probe issued with the flag off, and what the
    clock shows then. *)
Definition probed (w : World) : World :=
  (scalar (set_should_close_with_result false (mkConnection false)) w).2.

(** The reading of [time.time() - start] in the [except] clause of pass
    number [i] (from 0) of an acquisition, when the run gets that far. *)
Definition elapsed_at_failure (cfg : Config) (conn : Connection) (w : World)
    (i : nat) : option Q :=
  match passes cfg i (entry_locals cfg conn w) conn w with
  | Some (l, _, w') => Some (time_time (probed w') - start l)
  | None => None
  end.

(** The number of retried passes after which the timeout must have passed
    when each of them takes at least [eps] seconds. *)
Definition max_retries (cfg : Config) (eps : Q) : nat :=
  Z.to_nat (Qceiling (reconnect_timeout_seconds cfg / eps)).

(** Every retried pass is sure to take at least [eps] on the clock:
    because every probe does, or because no probe takes negative time and
    every sleep lasts at least [eps]. *)
Definition AlwaysTakes (eps : Q) (backoff0 max_backoff : Q) (w : World)
  : Prop :=
  (forall i, 0 <= (probe_script w i).1)
  /\ ((forall i, eps <= (probe_script w i).1)
      \/ (eps <= backoff0 /\ eps <= max_backoff
          /\ forall i, 0 <= random_script w i)).

(** The largest finite binary64 number; a backoff computed beyond it is
    [inf] in the interpreter, and [inf * 0] is [nan]. *)
Definition float_max : Q := inject_Z (2 ^ 1024 - 2 ^ 971).

(** Line 77, [backoff += backoff * random.random()], in the binary64
    arithmetic of the interpreter. *)
Definition float_backoff_update (backoff u : float) : float :=
  (backoff + backoff * u)%float.

(** The backoff computed by a retried pass: [backoff += backoff *
    random.random()]. *)
Definition next_backoff (l : Locals) (w : World) : Q :=
  backoff l + backoff l * random_script w (randoms_done w).

(** The world after a retried pass whose probe took [took] and failed with
    [err]. *)
Definition slept (cfg : Config) (l : Locals) (w : World) (took : Q)
    (err : DBAPIError) : World :=
  mkWorld (now w + took + Qmin (next_backoff l w) (max_backoff_seconds cfg))
          (probe_script w) (S (probes_done w))
          (random_script w) (S (randoms_done w))
          (trace w ++ [EvProbe false (ProbeDBAPIError err);
                       EvLog LogInvalidated;
                       EvRandom (random_script w (randoms_done w));
                       EvSleep (Qmin (next_backoff l w)
                                     (max_backoff_seconds cfg))]).

(** What [n] retried passes leave untouched, and what they add. *)
Record Frame (n : nat) (l : Locals) (c : Connection) (w : World)
    (l' : Locals) (c' : Connection) (w' : World) : Prop := mkFrame {
  fr_start : start l' = start l;
  fr_save : save_should_close_with_result l' = save_should_close_with_result l;
  fr_conn : c' = c \/ c' = mkConnection (save_should_close_with_result l);
  fr_probe_script : probe_script w' = probe_script w;
  fr_random_script : random_script w' = random_script w;
  fr_probes_done : probes_done w' = (probes_done w + n)%nat;
  fr_randoms_done : randoms_done w' = (randoms_done w + n)%nat;
  fr_trace : exists new,
      trace w' = trace w ++ new
      /\ forallb probe_flag_off new = true
      /\ length (sleeps new) = n
      /\ length (probes new) = n
}.

(** A text without a comma: what the decimal form of a pid is, so that the
    two pids can be read back from the message of [checkout]. *)
Fixpoint comma_free (s : string) : bool :=
  match s with
  | EmptyString => true
  | String c s' => negb (Ascii.eqb c ","%char) && comma_free s'
  end.

(** The lengths of the sleeps of a trace, in order. *)
Definition sleep_lengths (tr : list Event) : list Q :=
  List.flat_map (fun e => match e with EvSleep d => [d] | _ => [] end) tr.

(** The records written with [log.error], in order. *)
Definition errors_logged (tr : list Event) : list LogRecord :=
  List.flat_map
    (fun e => match e with
              | EvLog LogInvalidated => []
              | EvLog r => [r]
              | _ => []
              end) tr.

(** The records written with [log.warning], in order. *)
Definition warnings_logged (tr : list Event) : list LogRecord :=
  List.flat_map
    (fun e => match e with EvLog LogInvalidated => [LogInvalidated] | _ => [] end)
    tr.

(** The world after a pass whose probe took [took] and failed with the
    invalidation [err], and whose sleep was refused (negative or too
    large): the warning is logged and the random number drawn, but no time
    is slept. *)
Definition refused (w : World) (took : Q) (err : DBAPIError) : World :=
  mkWorld (now w + took) (probe_script w) (S (probes_done w))
          (random_script w) (S (randoms_done w))
          (trace w ++ [EvProbe false (ProbeDBAPIError err);
                       EvLog LogInvalidated;
                       EvRandom (random_script w (randoms_done w))]).

(** ** Concrete runs *)

Definition gone_away : DBAPIError := mkDBAPIError true "server has gone away".
Definition bad_query : DBAPIError := mkDBAPIError false "syntax error".

(** The scenario of three invalidations and then a success, each probe
    taking a tenth of a second, under the default backoff. *)
Definition flaky_script (i : nat) : Q * ProbeResult :=
  match i with
  | 0%nat | 1%nat | 2%nat => (1 # 10, ProbeDBAPIError gone_away)
  | _ => (1 # 10, ProbeOk)
  end.

Definition flaky_world : World :=
  fresh_world 1000 flaky_script (fun _ => 1 # 2).

(** A database that stays down; every probe takes [took] seconds. *)
Definition down_world (took : Q) : World :=
  fresh_world 1000 (fun _ => (took, ProbeDBAPIError gone_away))
              (fun _ => 1 # 2).

(** One invalidation, then a probe that fails otherwise. *)
Definition broken_script (i : nat) : Q * ProbeResult :=
  match i with
  | 0%nat => (1 # 10, ProbeDBAPIError gone_away)
  | _ => (1 # 10, ProbeDBAPIError bad_query)
  end.

Definition broken_world : World :=
  fresh_world 1000 broken_script (fun _ => 1 # 2).

(** One invalidation answered at once, then a success; no jitter. *)
Definition blip_script (i : nat) : Q * ProbeResult :=
  match i with
  | 0%nat => (0, ProbeDBAPIError gone_away)
  | _ => (0, ProbeOk)
  end.

Definition blip_world : World := fresh_world 1000 blip_script (fun _ => 0).

(** A first probe that succeeds after a hundred seconds. *)
Definition slow_world : World :=
  fresh_world 1000 (fun _ => (100, ProbeOk)) (fun _ => 1 # 2).

(** A timeout of one second with a first backoff of ten. *)
Definition hasty_config : Config := mkConfig 1 10 120.

(** No backoff at all. *)
Definition eager_config : Config := mkConfig 5 0 120.

(** A backoff below zero. *)
Definition backward_config : Config := mkConfig 5 (-1) 120.


(** A record stamped by process 5, with its proxy. *)
Definition parent_record : ConnectionRecord :=
  connect 5 0%nat (mkRecord ∅ (Some 0%nat)).

Definition parent_proxy : ConnectionProxy := mkProxy (Some 0%nat).

(** A probe that dies of something that is not a database error. *)
Definition crash_world : World :=
  fresh_world 1000 (fun _ => (1 # 10, ProbeRaises "KeyboardInterrupt"))
              (fun _ => 1 # 2).

(** One invalidation, then a non-invalidation failure that arrives late. *)
Definition late_script (i : nat) : Q * ProbeResult :=
  match i with
  | 0%nat => (1 # 10, ProbeDBAPIError gone_away)
  | _ => (9, ProbeDBAPIError bad_query)
  end.

Definition late_world : World := fresh_world 1000 late_script (fun _ => 1 # 2).

(** * Properties *)

(** ** Reading one pass of the loop *)

Lemma Qle_bool_false (x y : Q) : Qle_bool x y = false <-> y < x.
Proof.
  split; intros H.
  - apply Qnot_le_lt. intros Hle. apply Qle_bool_iff in Hle. congruence.
  - destruct (Qle_bool x y) eqn:E; [|reflexivity].
    apply Qle_bool_iff in E. lra.
Qed.

Lemma connection_eta (conn : Connection) :
  mkConnection (should_close_with_result conn) = conn.
Proof. by destruct conn. Qed.

Ltac open_pass Hp :=
  unfold iteration, try_except, scalar, set_should_close_with_result;
  cbn [should_close_with_result]; rewrite Hp; cbn [time_time now].

Section OnePass.
Variable cfg : Config.
Variables (l : Locals) (conn : Connection) (w : World).

Let restored := mkConnection (save_should_close_with_result l).

(** The probe succeeds: [break]. *)
Lemma pass_ok took :
  probe_script w (probes_done w) = (took, ProbeOk) ->
  iteration cfg l conn w = (SigBreak, restored, probed w).
Proof. intros Hp. unfold probed. by open_pass Hp. Qed.

(** The probe raises something that is not a [DBAPIError]. *)
Lemma pass_raises took what :
  probe_script w (probes_done w) = (took, ProbeRaises what) ->
  iteration cfg l conn w = (SigRaise (ExcOther what), restored, probed w).
Proof. intros Hp. unfold probed. by open_pass Hp. Qed.

(** A [DBAPIError] once the timeout has passed: logged and re-raised. *)
Lemma pass_timeout took err :
  probe_script w (probes_done w) = (took, ProbeDBAPIError err) ->
  reconnect_timeout_seconds cfg <= now w + took - start l ->
  iteration cfg l conn w =
    (SigRaise (ExcDBAPI err), restored,
     log (LogReestablish (reconnect_timeout_seconds cfg) err) (probed w)).
Proof.
  intros Hp Ht. unfold probed. open_pass Hp.
  apply Qle_bool_iff in Ht. by rewrite Ht.
Qed.

(** A [DBAPIError] that is not an invalidation, before the timeout. *)
Lemma pass_unknown took err :
  probe_script w (probes_done w) = (took, ProbeDBAPIError err) ->
  now w + took - start l < reconnect_timeout_seconds cfg ->
  connection_invalidated err = false ->
  iteration cfg l conn w =
    (SigRaise (ExcDBAPI err), restored, log (LogUnknown err) (probed w)).
Proof.
  intros Hp Ht Hi. unfold probed. open_pass Hp.
  apply Qle_bool_false in Ht. by rewrite Ht, Hi.
Qed.

(** An invalidation before the timeout: back off, sleep, [continue]. *)
Lemma pass_retry took err :
  probe_script w (probes_done w) = (took, ProbeDBAPIError err) ->
  now w + took - start l < reconnect_timeout_seconds cfg ->
  connection_invalidated err = true ->
  0 <= Qmin (next_backoff l w) (max_backoff_seconds cfg) ->
  Qmin (next_backoff l w) (max_backoff_seconds cfg) < sleep_limit ->
  iteration cfg l conn w
  = (SigContinue (next_backoff l w), restored, slept cfg l w took err).
Proof.
  intros Hp Ht Hi Hs Hlim. open_pass Hp.
  apply Qle_bool_false in Ht. rewrite Ht, Hi.
  unfold random_random, log, record_event, time_sleep, next_backoff in *.
  cbn [now probe_script probes_done random_script randoms_done trace].
  destruct (Qlt_le_dec _ 0) as [Hneg|_]; [lra|].
  destruct (Qlt_le_dec _ sleep_limit) as [_|Hbig]; [|lra].
  unfold slept, next_backoff. by rewrite <- !app_assoc.
Qed.

(** An invalidation before the timeout whose sleep [time.sleep] refuses as
    negative. *)
Lemma pass_sleep_refused took err :
  probe_script w (probes_done w) = (took, ProbeDBAPIError err) ->
  now w + took - start l < reconnect_timeout_seconds cfg ->
  connection_invalidated err = true ->
  Qmin (next_backoff l w) (max_backoff_seconds cfg) < 0 ->
  iteration cfg l conn w
  = (SigRaise (ExcSleepLength
                 (Qmin (next_backoff l w) (max_backoff_seconds cfg))),
     mkConnection (save_should_close_with_result l), refused w took err).
Proof.
  intros Hp Ht Hi Hs. open_pass Hp.
  apply Qle_bool_false in Ht. rewrite Ht, Hi.
  unfold random_random, log, record_event, time_sleep, next_backoff in *.
  cbn [now probe_script probes_done random_script randoms_done trace].
  destruct (Qlt_le_dec _ 0) as [_|Hpos]; [|lra].
  unfold refused. by rewrite <- !app_assoc.
Qed.

(** An invalidation before the timeout whose sleep [time.sleep] refuses as
    too long. *)
Lemma pass_sleep_overflow took err :
  probe_script w (probes_done w) = (took, ProbeDBAPIError err) ->
  now w + took - start l < reconnect_timeout_seconds cfg ->
  connection_invalidated err = true ->
  sleep_limit <= Qmin (next_backoff l w) (max_backoff_seconds cfg) ->
  iteration cfg l conn w
  = (SigRaise (ExcSleepOverflow
                 (Qmin (next_backoff l w) (max_backoff_seconds cfg))),
     mkConnection (save_should_close_with_result l), refused w took err).
Proof.
  intros Hp Ht Hi Hs. open_pass Hp.
  apply Qle_bool_false in Ht. rewrite Ht, Hi.
  unfold random_random, log, record_event, time_sleep, next_backoff in *.
  cbn [now probe_script probes_done random_script randoms_done trace].
  assert (0 < sleep_limit) as Hl by reflexivity.
  destruct (Qlt_le_dec _ 0) as [Hneg|_]; [lra|].
  destruct (Qlt_le_dec _ sleep_limit) as [Hsmall|_]; [lra|].
  unfold refused. by rewrite <- !app_assoc.
Qed.

(** Conversely, a pass that ends in [continue] went that way. *)
Lemma pass_continue_inv b conn' w' :
  iteration cfg l conn w = (SigContinue b, conn', w') ->
  exists took err,
    probe_script w (probes_done w) = (took, ProbeDBAPIError err)
    /\ now w + took - start l < reconnect_timeout_seconds cfg
    /\ connection_invalidated err = true
    /\ (0 <= Qmin (next_backoff l w) (max_backoff_seconds cfg)
        /\ Qmin (next_backoff l w) (max_backoff_seconds cfg) < sleep_limit)
    /\ b = next_backoff l w /\ conn' = restored
    /\ w' = slept cfg l w took err.
Proof.
destruct (probe_script w (probes_done w)) as [took res] eqn:Hp.
intros H. destruct res as [|err|what].
- rewrite (pass_ok took Hp) in H. discriminate.
- destruct (Qlt_le_dec (now w + took - start l)
                       (reconnect_timeout_seconds cfg)) as [Ht|Ht].
  + destruct (connection_invalidated err) eqn:Hi.
    * destruct (Qlt_le_dec
                  (Qmin (next_backoff l w) (max_backoff_seconds cfg)) 0)
        as [Hs|Hs].
      { rewrite (pass_sleep_refused took err Hp Ht Hi Hs) in H.
        discriminate. }
      destruct (Qlt_le_dec
                  (Qmin (next_backoff l w) (max_backoff_seconds cfg))
                  sleep_limit) as [Hlim|Hlim].
      -- rewrite (pass_retry took err Hp Ht Hi Hs Hlim) in H.
         injection H as <- <- <-. by exists took, err.
      -- rewrite (pass_sleep_overflow took err Hp Ht Hi Hlim) in H.
         discriminate.
    * rewrite (pass_unknown took err Hp Ht Hi) in H. discriminate.
  + rewrite (pass_timeout took err Hp Ht) in H. discriminate.
- rewrite (pass_raises took what Hp) in H. discriminate.
Qed.
End OnePass.

Lemma probed_eq (w : World) took res :
  probe_script w (probes_done w) = (took, res) ->
  probed w = mkWorld (now w + took) (probe_script w) (S (probes_done w))
                     (random_script w) (randoms_done w)
                     (trace w ++ [EvProbe false res]).
Proof. intros Hp. unfold probed, scalar. by rewrite Hp. Qed.

(** The seven ways through one pass. *)
Ltac pass_cases cfg l c w :=
  destruct (probe_script w (probes_done w)) as [took res] eqn:Hp;
  destruct res as [|err|what];
  [ rewrite (pass_ok cfg l c w took Hp), (probed_eq w took _ Hp)
  | destruct (Qlt_le_dec (now w + took - start l)
                         (reconnect_timeout_seconds cfg)) as [Ht|Ht];
    [ destruct (connection_invalidated err) eqn:Hi;
      [ destruct (Qlt_le_dec
                    (Qmin (next_backoff l w) (max_backoff_seconds cfg)) 0)
          as [Hs|Hs];
        [ rewrite (pass_sleep_refused cfg l c w took err Hp Ht Hi Hs)
        | destruct (Qlt_le_dec
                      (Qmin (next_backoff l w) (max_backoff_seconds cfg))
                      sleep_limit) as [Hlim|Hlim];
          [ rewrite (pass_retry cfg l c w took err Hp Ht Hi Hs Hlim)
          | rewrite (pass_sleep_overflow cfg l c w took err Hp Ht Hi Hlim) ] ]
      | rewrite (pass_unknown cfg l c w took err Hp Ht Hi),
          (probed_eq w took _ Hp) ]
    | rewrite (pass_timeout cfg l c w took err Hp Ht),
        (probed_eq w took _ Hp) ]
  | rewrite (pass_raises cfg l c w took what Hp), (probed_eq w took _ Hp) ].

(** ** Runs of several passes *)

Lemma loop_passes cfg n k : forall l c w l' c' w',
  passes cfg n l c w = Some (l', c', w') ->
  loop cfg (n + k) l c w = loop cfg k l' c' w'.
Proof.
  induction n as [|n IH]; intros l c w l' c' w' H; cbn in H.
  - by injection H as -> -> ->.
  - cbn [Nat.add loop].
    destruct (iteration cfg l c w) as [[[| b |e] c1] w1]; try discriminate.
    by apply IH.
Qed.


Lemma passes_unsnoc cfg n : forall l c w l2 c2 w2,
  passes cfg (S n) l c w = Some (l2, c2, w2) ->
  exists l1 c1 w1,
    passes cfg n l c w = Some (l1, c1, w1)
    /\ iteration cfg l1 c1 w1 = (SigContinue (backoff l2), c2, w2)
    /\ l2 = mkLocals (start l1) (backoff l2) (save_should_close_with_result l1).
Proof.
  induction n as [|n IH]; intros l c w l2 c2 w2 H.
  - cbn in H.
    destruct (iteration cfg l c w) as [[[| b1 |e] c1] w1] eqn:Hit;
      try discriminate.
    injection H as <- <- <-. by exists l, c, w.
  - cbn [passes] in H.
    destruct (iteration cfg l c w) as [[[| b1 |e] c1] w1] eqn:Hit;
      try discriminate.
    destruct (IH _ _ _ _ _ _ H) as (l1' & c1' & w1' & Hp & Hi & Hl).
    exists l1', c1', w1'. split; [|by split].
    change (passes cfg (S n) l c w) with
      (match iteration cfg l c w with
       | (SigContinue b, conn', w') =>
           passes cfg n
             (mkLocals (start l) b (save_should_close_with_result l)) conn' w'
       | _ => None
       end).
    by rewrite Hit.
Qed.

Lemma passes_frame cfg n : forall l c w l' c' w',
  passes cfg n l c w = Some (l', c', w') -> Frame n l c w l' c' w'.
Proof.
  induction n as [|n IH]; intros l c w l' c' w' H.
  - cbn in H. injection H as <- <- <-.
    split; auto. exists []. by rewrite app_nil_r.
  - destruct (passes_unsnoc _ _ _ _ _ _ _ _ H)
      as (l1 & c1 & w1 & Hp & Hit & Hl).
    destruct (IH _ _ _ _ _ _ Hp) as [Hs Hv Hc Hps Hrs Hpd Hrd Htr].
    destruct (pass_continue_inv _ _ _ _ _ _ _ Hit)
      as (took & err & Hpr & _ & _ & _ & _ & Hc' & Hw').
    destruct Htr as (new & Hnew & Hoff & Hsl & Hprb).
    subst w' c'. rewrite Hl. unfold slept.
    split; cbn [start save_should_close_with_result probe_script
                random_script probes_done randoms_done trace]; auto.
    + right. by rewrite Hv.
    + lia.
    + lia.
    + eexists. split; [rewrite Hnew, <- app_assoc; reflexivity|].
      rewrite forallb_app, Hoff. unfold sleeps, probes in *.
      rewrite !List.filter_app, !length_app, Hsl, Hprb. cbn. repeat split; lia.
Qed.

(** Whichever way a pass ends, [finally] has restored the flag, the pass
    began with a probe under the flag switched off, and only a pass ending
    in [continue] slept. *)
Lemma pass_any cfg l c w :
  exists res rest,
    (iteration cfg l c w).1.2 = mkConnection (save_should_close_with_result l)
    /\ trace (iteration cfg l c w).2 = trace w ++ EvProbe false res :: rest
    /\ forallb probe_flag_off rest = true
    /\ probes rest = []
    /\ ((forall b, (iteration cfg l c w).1.1 <> SigContinue b) ->
        sleeps rest = []).
Proof.
  pass_cases cfg l c w; unfold slept, refused;
    cbn [fst snd log record_event trace]; rewrite <- ?app_assoc;
    eexists _, _; (split; [reflexivity|]); (split; [reflexivity|]);
    repeat split; try reflexivity.
  intros Hb. by destruct (Hb (next_backoff l w)).
Qed.

(** The loop never leaves the flag at anything but the connection's value
    on entry or the saved one, and probes only with the flag off. *)
Lemma loop_flag cfg fuel : forall l c w,
  ((loop cfg fuel l c w).1.2 = c
   \/ (loop cfg fuel l c w).1.2 = mkConnection (save_should_close_with_result l))
  /\ exists new,
       trace (loop cfg fuel l c w).2 = trace w ++ new
       /\ forallb probe_flag_off new = true.
Proof.
  induction fuel as [|fuel IH]; intros l c w.
  - cbn. split; [by left|]. exists []. by rewrite app_nil_r.
  - cbn [loop].
    destruct (pass_any cfg l c w) as (res & rest & Hc & Htr & Hoff & _ & _).
    destruct (iteration cfg l c w) as [[sig c1] w1]. cbn [fst snd] in *.
    destruct sig as [|b|e]; cbn [fst snd].
    + split; [by right|]. eexists. split; [exact Htr|exact Hoff].
    + destruct (IH (mkLocals (start l) b (save_should_close_with_result l))
                   c1 w1) as [Hflag (new & Hnew & Hnoff)].
      cbn [save_should_close_with_result] in Hflag.
      split; [right; destruct Hflag as [->| ->]; [exact Hc|reflexivity]|].
      exists ((EvProbe false res :: rest) ++ new).
      split; [by rewrite Hnew, Htr, <- app_assoc|].
      by rewrite forallb_app, Hnoff, andb_true_r.
    + split; [by right|]. eexists. split; [exact Htr|exact Hoff].
Qed.

Lemma entry_frame cfg conn w n l c' w' :
  passes cfg n (entry_locals cfg conn w) conn w = Some (l, c', w') ->
  start l = now w
  /\ save_should_close_with_result l = should_close_with_result conn
  /\ c' = conn.
Proof.
  intros H. destruct (passes_frame _ _ _ _ _ _ _ _ H) as [Hs Hv Hc _ _ _ _ _].
  cbn in *. repeat split; auto.
  destruct Hc as [->| ->]; [reflexivity|apply connection_eta].
Qed.

(** ** Sub-connections *)

(** C9: when [branch] is true the handler returns at once: no probe, no
    sleep, no log, and neither the connection nor anything outside is
    changed, whatever the state of the connection and however the probes
    would have gone. *)
Theorem branch_is_noop cfg fuel conn w :
  ping_connection cfg fuel conn true w = (Returned, conn, w).
Proof. reflexivity. Qed.

(** ** The "close with result" flag *)

(** C2: on a non-branch acquisition the flag is saved on entry, every probe
    of the run is issued with the flag off, the flag is back at the saved
    value after each retried pass, and the connection is handed back with
    the value the flag had on entry, however the run ends (return, raise,
    or cut off). *)
Theorem close_with_result_restored cfg fuel conn w :
  save_should_close_with_result (entry_locals cfg conn w)
    = should_close_with_result conn
  /\ should_close_with_result
       (connection_of (ping_connection cfg fuel conn false w))
     = should_close_with_result conn
  /\ (exists new,
        trace (world_of (ping_connection cfg fuel conn false w))
          = trace w ++ new
        /\ forallb probe_flag_off new = true)
  /\ (forall l c w0 : _,
        should_close_with_result (iteration cfg l c w0).1.2
          = save_should_close_with_result l)
  /\ (forall n l c' w',
        passes cfg n (entry_locals cfg conn w) conn w = Some (l, c', w') ->
        should_close_with_result c' = should_close_with_result conn).
Proof.
  split; [reflexivity|].
  unfold ping_connection, connection_of, world_of.
  destruct (loop_flag cfg fuel (entry_locals cfg conn w) conn w)
    as [Hflag Htr].
  repeat split.
  - by destruct Hflag as [->| ->].
  - exact Htr.
  - intros l c w0.
    destruct (pass_any cfg l c w0) as (? & ? & -> & _). reflexivity.
  - intros n l c' w' H.
    by destruct (entry_frame _ _ _ _ _ _ _ H) as (_ & _ & ->).
Qed.

(** ** Failures that are not retried *)

(** C5: when a probe, the first or one after any number of retried passes,
    raises a [DBAPIError] with [connection_invalidated] false, the handler
    raises that same error at once: after the failed probe the trace holds
    one log record and nothing else, so no sleep and no further probe. *)
Theorem unknown_error_not_retried cfg conn w n l c' w' took err k :
  passes cfg n (entry_locals cfg conn w) conn w = Some (l, c', w') ->
  probe_script w' (probes_done w') = (took, ProbeDBAPIError err) ->
  connection_invalidated err = false ->
  let r := ping_connection cfg (n + S k) conn false w in
  outcome_of r = Raised (ExcDBAPI err)
  /\ connection_of r = conn
  /\ (exists rec,
        trace (world_of r)
          = trace w' ++ [EvProbe false (ProbeDBAPIError err); EvLog rec]
        /\ (rec = LogUnknown err
            \/ rec = LogReestablish (reconnect_timeout_seconds cfg) err))
  /\ probes_done (world_of r) = S (probes_done w')
  /\ randoms_done (world_of r) = randoms_done w'
  /\ now (world_of r) = now w' + took.
Proof.
  intros H Hp Hi r. subst r. unfold ping_connection.
  rewrite (loop_passes _ _ _ _ _ _ _ _ _ H). cbn [loop].
  destruct (entry_frame _ _ _ _ _ _ _ H) as (_ & Hv & ->).
  pose proof (connection_eta conn) as Heta.
  destruct (Qlt_le_dec (now w' + took - start l)
                       (reconnect_timeout_seconds cfg)) as [Ht|Ht].
  - rewrite (pass_unknown cfg l conn w' took err Hp Ht Hi),
      (probed_eq w' took _ Hp), Hv, Heta.
    unfold outcome_of, connection_of, world_of.
    cbn [fst snd log record_event trace probes_done randoms_done now].
    rewrite <- app_assoc. repeat split; eauto.
  - rewrite (pass_timeout cfg l conn w' took err Hp Ht),
      (probed_eq w' took _ Hp), Hv, Heta.
    unfold outcome_of, connection_of, world_of.
    cbn [fst snd log record_event trace probes_done randoms_done now].
    rewrite <- app_assoc. repeat split; eauto.
Qed.

(** ** A probe that succeeds *)

Lemma passes_then_ok cfg conn w n l c' w' took k :
  passes cfg n (entry_locals cfg conn w) conn w = Some (l, c', w') ->
  probe_script w' (probes_done w') = (took, ProbeOk) ->
  ping_connection cfg (n + S k) conn false w = (Returned, conn, probed w').
Proof.
  intros H Hp. unfold ping_connection.
  rewrite (loop_passes _ _ _ _ _ _ _ _ _ H). cbn [loop].
  destruct (entry_frame _ _ _ _ _ _ _ H) as (_ & Hv & ->).
  by rewrite (pass_ok cfg l conn w' took Hp), Hv, connection_eta.
Qed.

(** C10: a non-branch acquisition always begins with a probe, and a probe
    that succeeds, the first or one after any number of retried passes,
    makes the handler return normally with the flag restored; neither the
    clock nor [reconnect_timeout_seconds] enters, so this holds when the
    elapsed time is beyond the timeout and when the timeout is 0. *)
Theorem successful_probe_returns cfg conn w :
  (forall k, exists res rest,
      trace (world_of (ping_connection cfg (S k) conn false w))
        = trace w ++ EvProbe false res :: rest)
  /\ (forall n l c' w' took k,
        passes cfg n (entry_locals cfg conn w) conn w = Some (l, c', w') ->
        probe_script w' (probes_done w') = (took, ProbeOk) ->
        ping_connection cfg (n + S k) conn false w
          = (Returned, conn, probed w')).
Proof.
  split.
  - intros k. unfold ping_connection, world_of. cbn [loop].
    set (l := entry_locals cfg conn w).
    destruct (pass_any cfg l conn w) as (res & rest & _ & Htr & _).
    destruct (iteration cfg l conn w) as [[sig c1] w1]. cbn [fst snd] in Htr.
    destruct sig as [|b|e]; cbn [fst snd]; eauto.
    destruct (loop_flag cfg k
                (mkLocals (start l) b (save_should_close_with_result l))
                c1 w1) as [_ (new & -> & _)].
    rewrite Htr, <- app_assoc. eauto.
  - intros n l c' w' took k. apply passes_then_ok.
Qed.

(** ** The timeout *)

(** C1 (as the code has it): when a probe, the first or one after any
    number of retried passes, raises a [DBAPIError] and the clock then
    shows [reconnect_timeout_seconds] or more since the handler was
    entered, the handler logs the configured timeout with that error and
    re-raises the error itself; nothing follows the log record, so there
    is no further sleep and no further probe. *)
Theorem timeout_reraises_probe_error cfg conn w n l c' w' took err k :
  passes cfg n (entry_locals cfg conn w) conn w = Some (l, c', w') ->
  probe_script w' (probes_done w') = (took, ProbeDBAPIError err) ->
  reconnect_timeout_seconds cfg <= now w' + took - now w ->
  let r := ping_connection cfg (n + S k) conn false w in
  r = (Raised (ExcDBAPI err), conn,
       log (LogReestablish (reconnect_timeout_seconds cfg) err) (probed w'))
  /\ trace (world_of r)
       = trace w' ++ [EvProbe false (ProbeDBAPIError err);
                      EvLog (LogReestablish (reconnect_timeout_seconds cfg) err)]
  /\ probes_done (world_of r) = S (probes_done w')
  /\ randoms_done (world_of r) = randoms_done w'.
Proof.
  intros H Hp Ht r. subst r. unfold ping_connection.
  rewrite (loop_passes _ _ _ _ _ _ _ _ _ H). cbn [loop].
  destruct (entry_frame _ _ _ _ _ _ _ H) as (Hs & Hv & ->).
  rewrite <- Hs in Ht.
  rewrite (pass_timeout cfg l conn w' took err Hp Ht), Hv, connection_eta.
  split; [reflexivity|]. rewrite (probed_eq w' took _ Hp).
  unfold world_of.
  cbn [fst snd log record_event trace probes_done randoms_done].
  by rewrite <- app_assoc.
Qed.

(** ** Process affinity *)

Lemma pretty_N_go_comma_free (x : N) : forall s,
  comma_free s = true -> comma_free (pretty_N_go x s) = true.
Proof.
  induction (N.lt_wf_0 x) as [x _ IH]; intros s Hs.
  assert (x = 0 \/ 0 < x)%N as [->|Hx] by lia.
  - by rewrite pretty_N_go_0.
  - rewrite pretty_N_go_step by done. apply IH.
    + by apply N.div_lt.
    + unfold pretty_N_char. by repeat case_match.
Qed.

Lemma pretty_Z_comma_free (z : Z) : comma_free (pretty z) = true.
Proof.
  assert (forall p : positive, comma_free (pretty p) = true) as Hpos.
  { intros p. unfold pretty, pretty_positive, pretty, pretty_N.
    case_decide; [done|]. by apply pretty_N_go_comma_free. }
  destruct z as [|p|p]; [done|apply Hpos|].
  unfold pretty, pretty_Z. cbn [String.append comma_free]. apply Hpos.
Qed.

Lemma split_at_comma (a : string) : forall a' t t',
  comma_free a = true -> comma_free a' = true ->
  a +:+ String ","%char t = a' +:+ String ","%char t' ->
  a = a' /\ t = t'.
Proof.
  induction a as [|c a IH]; intros [|c' a'] t t' Ha Ha' H; cbn in *.
  - by injection H as ->.
  - injection H as <- _. done.
  - injection H as -> _. done.
  - injection H as -> H.
    apply andb_prop in Ha as [_ Ha]. apply andb_prop in Ha' as [_ Ha'].
    by destruct (IH _ _ _ Ha Ha' H) as [-> ->].
Qed.

(** The message of [checkout] names the two pids: different pairs of pids
    give different messages. *)
Lemma disconnection_message_inj owner pid owner' pid' :
  disconnection_message owner pid = disconnection_message owner' pid' ->
  owner = owner' /\ pid = pid'.
Proof.
  unfold disconnection_message. intros H.
  cbn [String.append] in H. simplify_eq.
  change (pretty owner
            +:+ String ","%char
                  (" attempting to check out in pid " +:+ pretty pid)
          = pretty owner'
            +:+ String ","%char
                  (" attempting to check out in pid " +:+ pretty pid')) in H.
  apply split_at_comma in H as [Ho Hp]; [|apply pretty_Z_comma_free..].
  apply (inj pretty) in Ho. cbn [String.append] in Hp. simplify_eq.
  split; [reflexivity|]. by apply (inj pretty).
Qed.

(** C4: when the pid recorded in [info] differs from the pid of the process
    checking out, [checkout] sets the handle to [None] on the record and on
    the proxy and raises [DisconnectionError] with the message formatted
    from the recorded pid and the current pid, from which both can be read
    back. *)
Theorem checkout_foreign_pid pid dbapi rec proxy owner :
  info rec !! "pid" = Some owner ->
  owner <> pid ->
  checkout pid dbapi rec proxy
    = (Some (ExcDisconnection (disconnection_message owner pid)),
       mkRecord (info rec) None, mkProxy None)
  /\ record_connection (checkout pid dbapi rec proxy).1.2 = None
  /\ proxy_connection (checkout pid dbapi rec proxy).2 = None
  /\ disconnection_message owner pid
     = ("Connection record belongs to pid " +:+ pretty owner)
       +:+ (", attempting to check out in pid " +:+ pretty pid)
  /\ (forall owner' pid',
        disconnection_message owner' pid' = disconnection_message owner pid ->
        owner' = owner /\ pid' = pid).
Proof.
  intros Hinfo Hne. unfold checkout. rewrite Hinfo.
  rewrite bool_decide_eq_true_2 by done.
  repeat split; apply (disconnection_message_inj _ _ _ _ H).
Qed.

Lemma checkout_info pid dbapi rec proxy :
  info (checkout pid dbapi rec proxy).1.2 = info rec.
Proof.
  unfold checkout. destruct (info rec !! "pid") as [owner|]; [|reflexivity].
  by destruct (bool_decide (owner ≠ pid)).
Qed.

Lemma react_info n s : info (slot_record (react n s)) = info (slot_record s).
Proof.
  destruct n as [pid dbapi|cfg fuel branch w]; cbn.
  - pose proof (checkout_info pid dbapi (slot_record s) (slot_proxy s)) as H.
    by destruct (checkout pid dbapi (slot_record s) (slot_proxy s))
      as [[e r] p].
  - by destruct (ping_connection cfg fuel (slot_connection s) branch w)
      as [[o c] w'].
Qed.

Lemma react_all_info ns : forall s,
  info (slot_record (react_all ns s)) = info (slot_record s).
Proof.
  induction ns as [|n ns IH]; intros s; [reflexivity|].
  cbn. unfold react_all in IH. by rewrite IH, react_info.
Qed.

(** C8: [connect] writes the pid of the establishing process under the key
    ["pid"] and leaves the rest of [info] alone; after that, whatever
    sequence of checkouts (from any process, accepted or refused) and
    acquisitions follows, [info], and with it the recorded owner, is what
    [connect] left: a refused checkout clears the handles only. *)
Theorem owner_pid_written_at_connect_only pid dbapi s ns :
  let established :=
    mkSlot (connect pid dbapi (slot_record s)) (slot_proxy s)
           (slot_connection s) in
  info (slot_record established) !! "pid" = Some pid
  /\ (forall key, key <> "pid" ->
        info (slot_record established) !! key = info (slot_record s) !! key)
  /\ info (slot_record (react_all ns established))
     = info (slot_record established)
  /\ info (slot_record (react_all ns established)) !! "pid" = Some pid
  /\ (forall pid' dbapi' rec proxy,
        info (checkout pid' dbapi' rec proxy).1.2 = info rec).
Proof.
  cbn zeta. rewrite react_all_info. cbn [slot_record connect info].
  repeat split.
  - apply lookup_insert_eq.
  - intros key Hkey. by apply lookup_insert_ne.
  - apply lookup_insert_eq.
  - apply checkout_info.
Qed.

(** ** Backoff *)

Lemma next_backoff_ge l w :
  0 <= backoff l -> 0 <= random_script w (randoms_done w) ->
  backoff l <= next_backoff l w.
Proof. unfold next_backoff. intros Hb Hu. nra. Qed.







(** ** Retrying until the probe succeeds *)

Section Retries.
Variables (cfg : Config) (conn : Connection) (w : World) (N : nat).

Hypothesis backoff_nonneg : 0 <= initial_backoff_seconds cfg.
Hypothesis ceiling_nonneg : 0 <= max_backoff_seconds cfg.
Hypothesis random_unit :
  forall i, 0 <= random_script w i /\ random_script w i < 1.

(** Over [N] retries the backoff stays below
    [initial_backoff_seconds * 2^N]: that is still a finite float, and no
    sleep asked for, [min(backoff, max_backoff_seconds)], is too long for
    [time.sleep]. *)
Hypothesis backoff_fits :
  initial_backoff_seconds cfg * inject_Z (2 ^ Z.of_nat N) <= float_max.
Hypothesis sleeps_fit :
  Qmin (initial_backoff_seconds cfg * inject_Z (2 ^ Z.of_nat N))
       (max_backoff_seconds cfg) < sleep_limit.

(** The next [N] probes fail with an invalidation. *)
Hypothesis invalidated :
  forall i, (i < N)%nat ->
    exists took err,
      probe_script w (probes_done w + i) = (took, ProbeDBAPIError err)
      /\ connection_invalidated err = true.

(** At each of these failures the clock is short of the timeout. *)
Hypothesis below_timeout :
  forall i e, (i < N)%nat ->
    elapsed_at_failure cfg conn w i = Some e ->
    e < reconnect_timeout_seconds cfg.



End Retries.

(** ** Termination *)

Lemma inject_succ (m : nat) :
  inject_Z (Z.of_nat (S m)) == inject_Z (Z.of_nat m) + 1.
Proof. rewrite Nat2Z.inj_succ, <- Z.add_1_r, inject_Z_plus. reflexivity. Qed.

(** When every retried pass takes at least [eps], [m] of them use up a
    remaining time of [m * eps]: the loop is left within [m + 1] passes. *)
Lemma loop_exits cfg eps fuel : forall m l c w,
  (m < fuel)%nat ->
  0 < eps ->
  AlwaysTakes eps (backoff l) (max_backoff_seconds cfg) w ->
  reconnect_timeout_seconds cfg - (now w - start l)
    <= inject_Z (Z.of_nat m) * eps ->
  outcome_of (loop cfg fuel l c w) <> OutOfFuel
  /\ exists new,
       trace (world_of (loop cfg fuel l c w)) = trace w ++ new
       /\ (length (sleeps new) <= m)%nat
       /\ (length (probes new) <= S m)%nat.
Proof.
  induction fuel as [|fuel IH]; intros m l c w Hm Heps [Hdur Hwhy] Hrem;
    [lia|].
  cbn [loop]. unfold outcome_of, world_of.
  pose proof (Hdur (probes_done w)) as Htook.
  assert ((forall i, eps <= (probe_script w i).1)
          -> eps <= (probe_script w (probes_done w)).1) as Hslow by auto.
  pass_cases cfg l c w; cbn [fst snd] in Htook, Hslow;
    cbn [fst snd log record_event refused trace].
  - split; [discriminate|]. eexists. split; [reflexivity|cbn; split; lia].
  - split; [discriminate|]. eexists. split; [reflexivity|cbn; split; lia].
  - assert (eps <= took + Qmin (next_backoff l w) (max_backoff_seconds cfg)
            /\ AlwaysTakes eps (next_backoff l w) (max_backoff_seconds cfg)
                 (slept cfg l w took err)) as [Hadv Hnext].
    { destruct Hwhy as [Hall|(Hb & Hmax & Hu)].
      - split; [specialize (Hslow Hall); lra|].
        split; [exact Hdur|left; exact Hall].
      - pose proof (next_backoff_ge l w ltac:(lra) (Hu (randoms_done w))).
        assert (eps <= Qmin (next_backoff l w) (max_backoff_seconds cfg))
          by (apply Q.min_glb; lra).
        split; [lra|]. split; [exact Hdur|right].
        repeat split; try assumption; lra. }
    destruct m as [|m].
    { exfalso. change (inject_Z (Z.of_nat 0)) with 0 in Hrem. lra. }
    rewrite inject_succ in Hrem.
    destruct (IH m (mkLocals (start l) (next_backoff l w)
                             (save_should_close_with_result l))
                (mkConnection (save_should_close_with_result l))
                (slept cfg l w took err))
      as [Hout (new & Hnew & Hlen & Hprb)];
      [lia|exact Heps|exact Hnext|unfold slept; cbn [now start]; lra|].
    split; [exact Hout|].
    unfold world_of in Hnew. rewrite Hnew. unfold slept. cbn [trace].
    eexists. split; [rewrite <- app_assoc; reflexivity|].
    unfold sleeps, probes in *.
    rewrite !List.filter_app, !length_app. cbn. split; lia.
  - split; [discriminate|]. eexists. split; [reflexivity|cbn; split; lia].
  - split; [discriminate|].
    eexists. split; [rewrite <- app_assoc; reflexivity|cbn; split; lia].
  - split; [discriminate|].
    eexists. split; [rewrite <- app_assoc; reflexivity|cbn; split; lia].
  - split; [discriminate|]. eexists. split; [reflexivity|cbn; split; lia].
Qed.

Lemma max_retries_enough cfg eps :
  0 < eps ->
  reconnect_timeout_seconds cfg
    <= inject_Z (Z.of_nat (max_retries cfg eps)) * eps.
Proof.
  intros Hd. unfold max_retries.
  set (t := reconnect_timeout_seconds cfg).
  assert (t / eps <= inject_Z (Z.of_nat (Z.to_nat (Qceiling (t / eps)))))
    as H.
  { eapply Qle_trans; [apply Qle_ceiling|].
    rewrite <- Zle_Qle. lia. }
  apply (Qmult_le_compat_r _ _ eps) in H; [|lra].
  assert (t / eps * eps == t) as E by (field; lra).
  lra.
Qed.

(** A run that ended is not changed by more fuel. *)
Lemma loop_more_fuel cfg fuel k : forall l c w,
  outcome_of (loop cfg fuel l c w) <> OutOfFuel ->
  loop cfg (fuel + k) l c w = loop cfg fuel l c w.
Proof.
  induction fuel as [|fuel IH]; intros l c w H; [by destruct H|].
  cbn [Nat.add loop] in *.
  destruct (iteration cfg l c w) as [[[|b|e] c1] w1]; try reflexivity.
  by apply IH.
Qed.

(** C7 (as the code has it): for a finite [reconnect_timeout_seconds] and
    probes that end (a rational timeout and scripted durations are
    finite), when every retried pass is sure to take at least some
    [eps > 0] on the clock, because every probe does or because no probe
    takes negative time and both backoff settings are at least [eps], the
    handler ends, by returning or by raising, within
    [max_retries cfg eps] sleeps and one more probe than that, and with
    the same result however much longer it is allowed to run.  Nothing is
    said of the time it takes: the last sleep and the last probe may end
    after the timeout. *)
Theorem acquisition_terminates cfg conn branch w eps k :
  0 < eps ->
  AlwaysTakes eps (initial_backoff_seconds cfg) (max_backoff_seconds cfg) w ->
  let r := ping_connection cfg (S (max_retries cfg eps)) conn branch w in
  outcome_of r <> OutOfFuel
  /\ ping_connection cfg (S (max_retries cfg eps) + k) conn branch w = r
  /\ (exists new,
        trace (world_of r) = trace w ++ new
        /\ (length (sleeps new) <= max_retries cfg eps)%nat
        /\ (length (probes new) <= S (max_retries cfg eps))%nat).
Proof.
  intros Heps Htakes r. subst r.
  assert (outcome_of (ping_connection cfg (S (max_retries cfg eps))
                                      conn branch w) <> OutOfFuel
          /\ exists new,
               trace (world_of (ping_connection cfg (S (max_retries cfg eps))
                                                conn branch w))
                 = trace w ++ new
               /\ (length (sleeps new) <= max_retries cfg eps)%nat
               /\ (length (probes new) <= S (max_retries cfg eps))%nat)
    as [Hout Htr].
  { unfold ping_connection. destruct branch.
    - split; [discriminate|]. exists []. cbn.
      split; [by rewrite app_nil_r|split; lia].
    - apply (loop_exits cfg eps _ (max_retries cfg eps));
        [lia|exact Heps|exact Htakes|].
      pose proof (max_retries_enough cfg eps Heps).
      unfold entry_locals, time_time. cbn [start]. lra. }
  repeat split; try assumption.
  unfold ping_connection in *. destruct branch; [reflexivity|].
  by apply loop_more_fuel.
Qed.

(** * The properties on concrete runs *)

Ltac run := vm_compute; reflexivity.
Ltac holds := vm_compute; first [reflexivity | discriminate].

Lemma branch_is_noop_witness :
  ping_connection (default_config 5) 0 (mkConnection true) true (down_world 1)
  = (Returned, mkConnection true, down_world 1).
Proof. apply branch_is_noop. Defined.

Lemma close_with_result_restored_witness :
  should_close_with_result
    (connection_of
       (ping_connection (default_config 5) 10 (mkConnection true) false
                        flaky_world)) = true
  /\ exists l c' w',
       passes (default_config 5) 2
              (entry_locals (default_config 5) (mkConnection true) flaky_world)
              (mkConnection true) flaky_world = Some (l, c', w')
       /\ should_close_with_result c' = true.
Proof.
  destruct (close_with_result_restored (default_config 5) 10
              (mkConnection true) flaky_world) as (_ & Hend & _ & _ & Hmid).
  split; [exact Hend|].
  assert (exists s,
            passes (default_config 5) 2
              (entry_locals (default_config 5) (mkConnection true) flaky_world)
              (mkConnection true) flaky_world = Some s) as [[[l c'] w'] E]
    by (eexists; vm_compute; reflexivity).
  exists l, c', w'. split; [exact E|exact (Hmid 2%nat l c' w' E)].
Defined.

Lemma unknown_error_not_retried_witness :
  outcome_of (ping_connection (default_config 5) 2 (mkConnection true) false
                              broken_world)
  = Raised (ExcDBAPI bad_query).
Proof.
  refine (proj1 (unknown_error_not_retried (default_config 5)
                   (mkConnection true) broken_world 1 _ _ _ (1 # 10)
                   bad_query 0 _ _ _)).
  - run.
  - run.
  - run.
Defined.

Lemma successful_probe_returns_witness :
  outcome_of (ping_connection (mkConfig 0 (2 # 10) 120) 1
                              (mkConnection true) false slow_world)
  = Returned
  /\ outcome_of (ping_connection hasty_config 2 (mkConnection true) false
                                 blip_world)
     = Returned.
Proof.
  split.
  - refine (f_equal outcome_of
              (proj2 (successful_probe_returns (mkConfig 0 (2 # 10) 120)
                        (mkConnection true) slow_world)
                     0%nat _ _ _ 100 0%nat _ _)).
    + run.
    + run.
  - refine (f_equal outcome_of
              (proj2 (successful_probe_returns hasty_config
                        (mkConnection true) blip_world)
                     1%nat _ _ _ 0 0%nat _ _)).
    + run.
    + run.
Defined.

Lemma timeout_reraises_probe_error_witness :
  outcome_of (ping_connection (default_config (3 # 2)) 2 (mkConnection true)
                              false (down_world 1))
  = Raised (ExcDBAPI gone_away).
Proof.
  refine (f_equal outcome_of
            (proj1 (timeout_reraises_probe_error (default_config (3 # 2))
                      (mkConnection true) (down_world 1) 1 _ _ _ 1
                      gone_away 0 _ _ _))).
  - run.
  - run.
  - holds.
Defined.

Lemma checkout_foreign_pid_witness :
  checkout 7 0%nat parent_record parent_proxy
  = (Some (ExcDisconnection
             "Connection record belongs to pid 5, attempting to check out in pid 7"),
     mkRecord (info parent_record) None, mkProxy None).
Proof.
  refine (proj1 (checkout_foreign_pid 7 0%nat parent_record parent_proxy 5
                   _ _)).
  - run.
  - discriminate.
Defined.

Lemma owner_pid_written_at_connect_only_witness :
  info (slot_record
          (react_all [OnCheckout 7 0%nat;
                      OnEngineConnect (default_config 5) 10 false flaky_world;
                      OnCheckout 5 0%nat]
             (mkSlot parent_record parent_proxy (mkConnection false))))
    !! "pid" = Some 5%Z.
Proof.
  exact (proj1 (proj2 (proj2 (proj2
           (owner_pid_written_at_connect_only 5 0%nat
              (mkSlot (mkRecord ∅ (Some 0%nat)) parent_proxy
                      (mkConnection false))
              [OnCheckout 7 0%nat;
               OnEngineConnect (default_config 5) 10 false flaky_world;
               OnCheckout 5 0%nat]))))).
Defined.



Lemma acquisition_terminates_witness :
  outcome_of (ping_connection (default_config 5) 51 (mkConnection true) false
                              flaky_world) <> OutOfFuel
  /\ outcome_of (ping_connection (default_config 5) 26 (mkConnection true)
                                 false (down_world 0)) <> OutOfFuel.
Proof.
  split.
  - refine (proj1 (acquisition_terminates (default_config 5)
                     (mkConnection true) false flaky_world (1 # 10) 0 _ _)).
    + holds.
    + split; [intros i; destruct i as [|[|[|i]]]; holds|].
      left. intros i. destruct i as [|[|[|i]]]; holds.
  - refine (proj1 (acquisition_terminates (default_config 5)
                     (mkConnection true) false (down_world 0) (2 # 10) 0
                     _ _)).
    + holds.
    + split; [intros i; holds|].
      right. split; [holds|]. split; [holds|]. intros i. holds.
Defined.

(** * Where the code departs from the stated properties *)

(** C1 as stated fails: two runs that hit the timeout after 7 and after 9
    seconds raise the same exception and write the same log record, the
    probe error and the configured timeout of 1 second; the elapsed time is
    in neither. *)
Lemma timeout_error_lacks_elapsed_time :
  let run took :=
    ping_connection (default_config 1) 5 (mkConnection true) false
                    (down_world took) in
  elapsed_at_failure (default_config 1) (mkConnection true) (down_world 7) 0
    = Some 7
  /\ elapsed_at_failure (default_config 1) (mkConnection true) (down_world 9) 0
     = Some 9
  /\ outcome_of (run 7) = Raised (ExcDBAPI gone_away)
  /\ trace (world_of (run 7))
     = [EvProbe false (ProbeDBAPIError gone_away);
        EvLog (LogReestablish 1 gone_away)]
  /\ outcome_of (run 9) = outcome_of (run 7)
  /\ trace (world_of (run 9)) = trace (world_of (run 7)).
Proof. repeat split; run. Qed.



(** C7 as stated fails: with a timeout of one second and a first backoff of
    ten, one invalidation followed by a success makes the handler return
    normally ten seconds after entry. *)
Lemma return_can_come_after_timeout :
  let r := ping_connection hasty_config 2 (mkConnection true) false
                           blip_world in
  outcome_of r = Returned
  /\ sleeps (trace (world_of r)) = [EvSleep 10]
  /\ now (world_of r) - now blip_world == 10
  /\ reconnect_timeout_seconds hasty_config < now (world_of r) - now blip_world.
Proof. repeat split; holds. Qed.

(** In binary64 the backoff can leave the numbers: it overflows to [inf],
    and a draw of 0 then turns it into [nan]. *)
Lemma backoff_can_overflow :
  float_backoff_update 0x1.8p1023%float 0.5%float = infinity
  /\ is_nan (float_backoff_update infinity 0%float) = true.
Proof. split; vm_compute; reflexivity. Qed.

(** When neither the probes nor the sleeps take any time the clock stands
    still: with probes that fail at once and [initial_backoff_seconds] of 0
    the loop is never left. *)
Lemma zero_backoff_spins fuel : forall l c w,
  backoff l == 0 ->
  now w - start l < 5 ->
  probe_script w = (fun _ => (0, ProbeDBAPIError gone_away)) ->
  outcome_of (loop eager_config fuel l c w) = OutOfFuel.
Proof.
  induction fuel as [|fuel IH]; intros l c w Hb Ht Hps; [reflexivity|].
  cbn [loop].
  assert (probe_script w (probes_done w) = (0, ProbeDBAPIError gone_away))
    as Hp by (by rewrite Hps).
  assert (next_backoff l w == 0) as Hnb
    by (unfold next_backoff; rewrite Hb; ring).
  assert (Qmin (next_backoff l w) (max_backoff_seconds eager_config) == 0)
    as Hmin by (rewrite Q.min_l; [exact Hnb|rewrite Hnb; discriminate]).
  rewrite (pass_retry eager_config l c w 0 gone_away Hp);
    [|cbn; lra|reflexivity|lra|rewrite Hmin; reflexivity].
  apply IH; cbn [backoff start slept now probe_script]; try assumption.
  unfold slept. cbn [now]. lra.
Qed.

Lemma frozen_clock_never_ends fuel :
  outcome_of (ping_connection eager_config fuel (mkConnection true) false
                              (down_world 0)) = OutOfFuel.
Proof.
  unfold ping_connection. apply zero_backoff_spins.
  - reflexivity.
  - reflexivity.
  - reflexivity.
Qed.

(** * Further properties of the handlers *)

(** ** Ways out of [ping_connection] that are not a database error *)

(** X1: an exception of the probe that is not a [DBAPIError] passes through
    the handler untouched: it is raised as it is, nothing is logged, drawn
    or slept after the probe, and [finally] has restored the flag. *)
Theorem other_exception_passes_through cfg conn w n l c' w' took what k :
  passes cfg n (entry_locals cfg conn w) conn w = Some (l, c', w') ->
  probe_script w' (probes_done w') = (took, ProbeRaises what) ->
  ping_connection cfg (n + S k) conn false w
  = (Raised (ExcOther what), conn,
     mkWorld (now w' + took) (probe_script w') (S (probes_done w'))
             (random_script w') (randoms_done w')
             (trace w' ++ [EvProbe false (ProbeRaises what)])).
Proof.
  intros H Hp. unfold ping_connection.
  rewrite (loop_passes _ _ _ _ _ _ _ _ _ H). cbn [loop].
  destruct (entry_frame _ _ _ _ _ _ _ H) as (_ & Hv & ->).
  by rewrite (pass_raises cfg l conn w' took what Hp),
    (probed_eq w' took _ Hp), Hv, connection_eta.
Qed.

(** X2: the timeout is looked at before the kind of the error.  A
    [DBAPIError] that is not an invalidation is reported as "Unknown
    database connection error" when it comes before the timeout and as
    "Failed to re-establish DB connection" when it comes at or after it;
    either way exactly one record is logged. *)
Theorem unknown_error_log_depends_on_timeout
    cfg conn w n l c' w' took err k :
  passes cfg n (entry_locals cfg conn w) conn w = Some (l, c', w') ->
  probe_script w' (probes_done w') = (took, ProbeDBAPIError err) ->
  connection_invalidated err = false ->
  let tr := trace (world_of (ping_connection cfg (n + S k) conn false w)) in
  (now w' + took - now w < reconnect_timeout_seconds cfg ->
   tr = trace w' ++ [EvProbe false (ProbeDBAPIError err);
                     EvLog (LogUnknown err)])
  /\ (reconnect_timeout_seconds cfg <= now w' + took - now w ->
      tr = trace w' ++ [EvProbe false (ProbeDBAPIError err);
                        EvLog (LogReestablish (reconnect_timeout_seconds cfg)
                                              err)]).
Proof.
  intros H Hp Hi tr. subst tr. unfold ping_connection.
  rewrite (loop_passes _ _ _ _ _ _ _ _ _ H). cbn [loop].
  destruct (entry_frame _ _ _ _ _ _ _ H) as (Hs & _ & ->).
  rewrite <- Hs. split; intros Ht.
  - rewrite (pass_unknown cfg l conn w' took err Hp Ht Hi),
      (probed_eq w' took _ Hp).
    unfold world_of. cbn [fst snd log record_event trace].
    by rewrite <- app_assoc.
  - rewrite (pass_timeout cfg l conn w' took err Hp Ht),
      (probed_eq w' took _ Hp).
    unfold world_of. cbn [fst snd log record_event trace].
    by rewrite <- app_assoc.
Qed.

(** X3: when the computed sleep [min(backoff, max_backoff_seconds)] is
    negative, the retry stops there: the warning is logged and the random
    number drawn, [time.sleep] raises, and the handler lets that exception
    out with the flag restored, without sleeping or probing again. *)
Theorem negative_sleep_ends_the_retry cfg conn w n l c' w' took err k :
  passes cfg n (entry_locals cfg conn w) conn w = Some (l, c', w') ->
  probe_script w' (probes_done w') = (took, ProbeDBAPIError err) ->
  connection_invalidated err = true ->
  now w' + took - now w < reconnect_timeout_seconds cfg ->
  Qmin (next_backoff l w') (max_backoff_seconds cfg) < 0 ->
  ping_connection cfg (n + S k) conn false w
  = (Raised (ExcSleepLength
               (Qmin (next_backoff l w') (max_backoff_seconds cfg))),
     conn, refused w' took err).
Proof.
  intros H Hp Hi Ht Hneg. unfold ping_connection.
  rewrite (loop_passes _ _ _ _ _ _ _ _ _ H). cbn [loop].
  destruct (entry_frame _ _ _ _ _ _ _ H) as (Hs & Hv & ->).
  rewrite <- Hs in Ht.
  by rewrite (pass_sleep_refused cfg l conn w' took err Hp Ht Hi Hneg),
    Hv, connection_eta.
Qed.

(** X4: when the first probe alone takes [reconnect_timeout_seconds] or
    longer (always so for a timeout of 0 or less), nothing is retried: the
    handler ends after that one probe, by returning when it succeeded and
    by raising what it raised otherwise, without a sleep or a random
    draw. *)
Theorem slow_first_probe_is_never_retried cfg conn w k :
  reconnect_timeout_seconds cfg <= (probe_script w (probes_done w)).1 ->
  let r := ping_connection cfg (S k) conn false w in
  outcome_of r
  = match (probe_script w (probes_done w)).2 with
    | ProbeOk => Returned
    | ProbeDBAPIError err => Raised (ExcDBAPI err)
    | ProbeRaises what => Raised (ExcOther what)
    end
  /\ probes_done (world_of r) = S (probes_done w)
  /\ randoms_done (world_of r) = randoms_done w
  /\ exists new,
       trace (world_of r) = trace w ++ new
       /\ sleeps new = [] /\ length (probes new) = 1%nat.
Proof.
  intros Ht r. subst r. unfold ping_connection. cbn [loop].
  destruct (probe_script w (probes_done w)) as [took res] eqn:Hp.
  cbn [fst snd] in *. unfold outcome_of, world_of.
  destruct res as [|err|what].
  - rewrite (pass_ok _ _ _ _ took Hp), (probed_eq w took _ Hp).
    cbn. repeat split. by eexists.
  - rewrite (pass_timeout _ _ _ _ took err Hp), (probed_eq w took _ Hp);
      [|unfold entry_locals, time_time; cbn [start]; lra].
    cbn [fst snd log record_event trace probes_done randoms_done].
    repeat split. eexists. by rewrite <- app_assoc.
  - rewrite (pass_raises _ _ _ _ took what Hp), (probed_eq w took _ Hp).
    cbn. repeat split. by eexists.
Qed.

(** ** The shape of a whole run *)

Ltac count_events :=
  unfold sleep_lengths, errors_logged, warnings_logged, sleeps, probes in *;
  rewrite ?List.flat_map_app, ?List.filter_app, ?length_app;
  cbn [List.flat_map List.filter is_sleep is_probe app length].

(** What a run adds to the trace, for every configuration and world,
    finished or cut off. *)
Lemma loop_shape cfg fuel : forall l c w,
  exists new,
    trace (world_of (loop cfg fuel l c w)) = trace w ++ new
    /\ Forall (fun d => 0 <= d /\ d <= max_backoff_seconds cfg)
              (sleep_lengths new)
    /\ (outcome_of (loop cfg fuel l c w) <> OutOfFuel ->
        length (probes new) = S (length (sleeps new)))
    /\ probes_done (world_of (loop cfg fuel l c w))
       = (probes_done w + length (probes new))%nat
    /\ randoms_done (world_of (loop cfg fuel l c w))
       = (randoms_done w + length (warnings_logged new))%nat
    /\ (length (sleeps new) <= length (warnings_logged new)
        <= S (length (sleeps new)))%nat
    /\ (outcome_of (loop cfg fuel l c w) = Returned ->
        length (warnings_logged new) = length (sleeps new))
    /\ match outcome_of (loop cfg fuel l c w) with
       | Raised (ExcDBAPI err) =>
           errors_logged new = [LogUnknown err]
           \/ errors_logged new
              = [LogReestablish (reconnect_timeout_seconds cfg) err]
       | _ => errors_logged new = []
       end.
Proof.
  induction fuel as [|fuel IH]; intros l c w.
  { exists []. cbn. rewrite app_nil_r. repeat split; try lia; try done. }
  cbn [loop]. pass_cases cfg l c w; unfold outcome_of, world_of;
    cbn [fst snd log record_event refused trace probes_done randoms_done].
  - eexists. split; [reflexivity|]. cbn. repeat split; try lia; try done.
  - eexists. split; [reflexivity|]. cbn. repeat split; try lia; try done.
  - destruct (IH (mkLocals (start l) (next_backoff l w)
                           (save_should_close_with_result l))
                 (mkConnection (save_should_close_with_result l))
                 (slept cfg l w took err))
      as (new & Hnew & Hsl & Hpr & Hpd & Hrd & Hwl & Hret & Herr).
    unfold outcome_of, world_of in *. rewrite Hnew, Hpd, Hrd.
    unfold slept. cbn [trace probes_done randoms_done].
    eexists. split; [rewrite <- app_assoc; reflexivity|].
    split; [|split; [|split; [|split; [|split; [|split]]]]].
    + count_events. apply Forall_cons. split; [|exact Hsl].
      split; [exact Hs|apply Q.le_min_r].
    + intros Hout. count_events. rewrite (Hpr Hout). lia.
    + count_events. lia.
    + count_events. lia.
    + count_events. lia.
    + intros Hout. count_events. rewrite (Hret Hout). lia.
    + destruct (loop cfg fuel _ _ _) as [[[| [] |] ?] ?];
        cbn [fst snd] in *; exact Herr.
  - eexists. split; [reflexivity|]. cbn. repeat split; try lia; try done.
  - eexists. split; [rewrite <- app_assoc; reflexivity|].
    cbn. repeat split; try lia; try done. by left.
  - eexists. split; [rewrite <- app_assoc; reflexivity|].
    cbn. repeat split; try lia; try done. by right.
  - eexists. split; [reflexivity|]. cbn. repeat split; try lia; try done.
Qed.

(** X5: in every run, whatever the configuration, each sleep that takes
    place lasts [min(backoff, max_backoff_seconds)] at the most
    [max_backoff_seconds], and is not negative. *)
Theorem every_sleep_within_ceiling cfg fuel conn branch w :
  exists new,
    trace (world_of (ping_connection cfg fuel conn branch w)) = trace w ++ new
    /\ Forall (fun d => 0 <= d /\ d <= max_backoff_seconds cfg)
              (sleep_lengths new).
Proof.
  unfold ping_connection. destruct branch.
  - exists []. cbn. by rewrite app_nil_r.
  - destruct (loop_shape cfg fuel (entry_locals cfg conn w) conn w)
      as (new & Hnew & Hsl & _). by exists new.
Qed.

(** X6: a non-branch acquisition that ends, however it ends, has probed
    exactly once more than it has slept: every sleep is followed by a
    probe and nothing but a sleep separates two probes.  It has drawn one
    random number per warning logged. *)
Theorem one_more_probe_than_sleeps cfg fuel conn w :
  let r := ping_connection cfg fuel conn false w in
  outcome_of r <> OutOfFuel ->
  exists new,
    trace (world_of r) = trace w ++ new
    /\ length (probes new) = S (length (sleeps new))
    /\ probes_done (world_of r) = (probes_done w + length (probes new))%nat
    /\ randoms_done (world_of r)
       = (randoms_done w + length (warnings_logged new))%nat
    /\ (length (sleeps new) <= length (warnings_logged new)
        <= S (length (sleeps new)))%nat.
Proof.
  intros r Hout. subst r. unfold ping_connection in *.
  destruct (loop_shape cfg fuel (entry_locals cfg conn w) conn w)
    as (new & Hnew & _ & Hpr & Hpd & Hrd & Hwl & _).
  exists new. repeat split; auto; lia.
Qed.

(** X7: what reaches the error log is decided by how the handler ends.  A
    run that raises a [DBAPIError] has logged exactly one error, about
    that very error; a run that returns, or raises anything else, has
    logged no error at all; and a run that returns has logged one warning
    for each of its sleeps. *)
Theorem errors_logged_match_outcome cfg fuel conn w :
  exists new,
    trace (world_of (ping_connection cfg fuel conn false w)) = trace w ++ new
    /\ match outcome_of (ping_connection cfg fuel conn false w) with
       | Raised (ExcDBAPI err) =>
           errors_logged new = [LogUnknown err]
           \/ errors_logged new
              = [LogReestablish (reconnect_timeout_seconds cfg) err]
       | _ => errors_logged new = []
       end
    /\ (outcome_of (ping_connection cfg fuel conn false w) = Returned ->
        length (warnings_logged new) = length (sleeps new)).
Proof.
  unfold ping_connection.
  destruct (loop_shape cfg fuel (entry_locals cfg conn w) conn w)
    as (new & Hnew & _ & _ & _ & _ & _ & Hret & Herr).
  by exists new.
Qed.

(** ** Truncated binary exponential backoff *)


(** ** [connect] and [checkout] together *)

Lemma checkout_cases pid dbapi rec proxy :
  (info rec !! "pid" = None
   /\ checkout pid dbapi rec proxy = (Some (ExcKeyError "pid"), rec, proxy))
  \/ (info rec !! "pid" = Some pid
      /\ checkout pid dbapi rec proxy = (None, rec, proxy))
  \/ (exists owner,
        info rec !! "pid" = Some owner /\ owner <> pid
        /\ checkout pid dbapi rec proxy
           = (Some (ExcDisconnection (disconnection_message owner pid)),
              mkRecord (info rec) None, mkProxy None)).
Proof.
  unfold checkout. destruct (info rec !! "pid") as [owner|]; [|by left].
  right. destruct (decide (owner = pid)) as [->|Hne].
  - left. by rewrite bool_decide_eq_false_2 by (intros H; by apply H).
  - right. exists owner. by rewrite bool_decide_eq_true_2.
Qed.

(** X9: [checkout] returns normally exactly when the pid recorded in
    [info] is the pid of the process checking out, and then it changes
    neither the record nor the proxy. *)
Theorem checkout_accepts_exactly_the_owner pid dbapi rec proxy :
  ((checkout pid dbapi rec proxy).1.1 = None <-> info rec !! "pid" = Some pid)
  /\ (info rec !! "pid" = Some pid ->
      checkout pid dbapi rec proxy = (None, rec, proxy)).
Proof.
  destruct (checkout_cases pid dbapi rec proxy)
    as [[Hi ->]|[[Hi ->]|(owner & Hi & Hne & ->)]]; cbn; rewrite Hi;
    repeat split; try done; intros; simplify_eq.
Qed.

(** X10: only a refusal clears the handles.  A record that was never
    stamped makes [checkout] fail with [KeyError] on ['pid'], and whenever
    [checkout] ends without a [DisconnectionError] the record and the proxy
    are as they were. *)
Theorem checkout_clears_only_on_refusal pid dbapi rec proxy :
  (info rec !! "pid" = None ->
   checkout pid dbapi rec proxy = (Some (ExcKeyError "pid"), rec, proxy))
  /\ ((forall msg,
         (checkout pid dbapi rec proxy).1.1 <> Some (ExcDisconnection msg)) ->
      (checkout pid dbapi rec proxy).1.2 = rec
      /\ (checkout pid dbapi rec proxy).2 = proxy).
Proof.
  destruct (checkout_cases pid dbapi rec proxy)
    as [[Hi ->]|[[Hi ->]|(owner & Hi & Hne & ->)]]; cbn; rewrite Hi;
    split; try done.
  intros H. by destruct (H (disconnection_message owner pid)).
Qed.

(** X11: a record stamped by [connect] is handed out to the stamping
    process, whatever [info] held before, and refused to every other
    process with the message naming the two. *)
Theorem checkout_after_connect pid dbapi dbapi' rec proxy :
  checkout pid dbapi' (connect pid dbapi rec) proxy
  = (None, connect pid dbapi rec, proxy)
  /\ (forall other,
        other <> pid ->
        checkout other dbapi' (connect pid dbapi rec) proxy
        = (Some (ExcDisconnection (disconnection_message pid other)),
           mkRecord (<["pid" := pid]> (info rec)) None, mkProxy None)).
Proof.
  unfold checkout, connect. cbn [info]. rewrite lookup_insert_eq. split.
  - by rewrite bool_decide_eq_false_2 by (intros H; by apply H).
  - intros other Hne. by rewrite bool_decide_eq_true_2.
Qed.

(** X12: after a fork.  A record stamped in the parent is refused in the
    child; once the child has established a connection on it, [connect]
    has replaced the stamp: the child is served, the parent is refused, and
    nothing of the parent's stamp is left in [info]. *)
Theorem restamped_record_changes_owner parent child dbapi dbapi' rec proxy :
  parent <> child ->
  let refused_rec :=
    (checkout child dbapi (connect parent dbapi rec) proxy).1.2 in
  let refused_proxy :=
    (checkout child dbapi (connect parent dbapi rec) proxy).2 in
  let restamped := connect child dbapi' refused_rec in
  (checkout child dbapi (connect parent dbapi rec) proxy).1.1
  = Some (ExcDisconnection (disconnection_message parent child))
  /\ info restamped = <["pid" := child]> (info rec)
  /\ checkout child dbapi' restamped refused_proxy
     = (None, restamped, refused_proxy)
  /\ (checkout parent dbapi' restamped refused_proxy).1.1
     = Some (ExcDisconnection (disconnection_message child parent)).
Proof.
  intros Hne. cbn zeta.
  unfold checkout, connect. cbn [info]. rewrite lookup_insert_eq.
  rewrite bool_decide_eq_true_2 by done. cbn [fst snd info record_connection].
  rewrite insert_insert_eq, lookup_insert_eq.
  rewrite bool_decide_eq_false_2 by (intros H; by apply H).
  by rewrite bool_decide_eq_true_2.
Qed.

(** X13: [checkout] a second time, by the same process on what the first
    call left, ends the same way and changes nothing more. *)
Theorem checkout_twice_is_checkout_once pid dbapi dbapi' rec proxy :
  checkout pid dbapi' (checkout pid dbapi rec proxy).1.2
           (checkout pid dbapi rec proxy).2
  = checkout pid dbapi rec proxy.
Proof.
  destruct (checkout_cases pid dbapi rec proxy)
    as [[Hi ->]|[[Hi ->]|(owner & Hi & Hne & ->)]]; cbn [fst snd];
    unfold checkout; cbn [info]; rewrite Hi; try done.
  - by rewrite bool_decide_eq_false_2 by (intros H; by apply H).
  - by rewrite bool_decide_eq_true_2.
Qed.

(** ** The further properties on concrete runs *)

Lemma other_exception_passes_through_witness :
  outcome_of (ping_connection (default_config 5) 1 (mkConnection true) false
                              crash_world)
  = Raised (ExcOther "KeyboardInterrupt").
Proof.
  refine (f_equal outcome_of
            (other_exception_passes_through (default_config 5)
               (mkConnection true) crash_world 0 _ _ _ (1 # 10)
               "KeyboardInterrupt" 0 _ _)).
  - run.
  - run.
Defined.

Lemma unknown_error_log_depends_on_timeout_witness :
  errors_logged
    (trace (world_of (ping_connection (default_config 5) 2
                                      (mkConnection true) false late_world)))
  = [LogReestablish 5 bad_query]
  /\ errors_logged
       (trace (world_of (ping_connection (default_config 5) 2
                                         (mkConnection true) false
                                         broken_world)))
     = [LogUnknown bad_query].
Proof.
  split.
  - refine (eq_trans
              (f_equal errors_logged
                 (proj2 (unknown_error_log_depends_on_timeout
                           (default_config 5) (mkConnection true) late_world
                           1 _ _ _ 9 bad_query 0 _ _ _) _)) _).
    + run.
    + run.
    + run.
    + holds.
    + run.
  - refine (eq_trans
              (f_equal errors_logged
                 (proj1 (unknown_error_log_depends_on_timeout
                           (default_config 5) (mkConnection true) broken_world
                           1 _ _ _ (1 # 10) bad_query 0 _ _ _) _)) _).
    + run.
    + run.
    + run.
    + holds.
    + run.
Defined.

Lemma negative_sleep_ends_the_retry_witness :
  outcome_of (ping_connection backward_config 4 (mkConnection true) false
                              flaky_world)
  = Raised (ExcSleepLength (-3 # 2)).
Proof.
  refine (eq_trans
            (f_equal outcome_of
               (negative_sleep_ends_the_retry backward_config
                  (mkConnection true) flaky_world 0 _ _ _ (1 # 10) gone_away
                  3 _ _ _ _ _)) _).
  - run.
  - run.
  - run.
  - holds.
  - holds.
  - run.
Defined.

Lemma slow_first_probe_is_never_retried_witness :
  outcome_of (ping_connection (default_config 1) 5 (mkConnection true) false
                              (down_world 7))
  = Raised (ExcDBAPI gone_away)
  /\ outcome_of (ping_connection (mkConfig 0 (2 # 10) 120) 5
                                 (mkConnection true) false slow_world)
     = Returned.
Proof.
  split.
  - refine (proj1 (slow_first_probe_is_never_retried (default_config 1)
                     (mkConnection true) (down_world 7) 4 _)).
    holds.
  - refine (proj1 (slow_first_probe_is_never_retried (mkConfig 0 (2 # 10) 120)
                     (mkConnection true) slow_world 4 _)).
    holds.
Defined.

Lemma one_more_probe_than_sleeps_witness :
  exists new,
    trace (world_of (ping_connection (default_config 5) 10 (mkConnection true)
                                     false flaky_world))
    = trace flaky_world ++ new
    /\ length (probes new) = S (length (sleeps new)).
Proof.
  destruct (one_more_probe_than_sleeps (default_config 5) 10
              (mkConnection true) flaky_world) as (new & Htr & Hlen & _).
  - holds.
  - exists new. split; [exact Htr|exact Hlen].
Defined.


Lemma checkout_accepts_exactly_the_owner_witness :
  checkout 5 0%nat parent_record parent_proxy
  = (None, parent_record, parent_proxy).
Proof.
  refine (proj2 (checkout_accepts_exactly_the_owner 5 0%nat parent_record
                   parent_proxy) _).
  run.
Defined.

Lemma checkout_clears_only_on_refusal_witness :
  checkout 5 0%nat (mkRecord ∅ (Some 0%nat)) parent_proxy
  = (Some (ExcKeyError "pid"), mkRecord ∅ (Some 0%nat), parent_proxy).
Proof.
  refine (proj1 (checkout_clears_only_on_refusal 5 0%nat
                   (mkRecord ∅ (Some 0%nat)) parent_proxy) _).
  run.
Defined.

Lemma checkout_after_connect_witness :
  checkout 7 0%nat parent_record parent_proxy
  = (Some (ExcDisconnection (disconnection_message 5 7)),
     mkRecord (<["pid" := 5%Z]> ∅) None, mkProxy None).
Proof.
  refine (proj2 (checkout_after_connect 5 0%nat 0%nat
                   (mkRecord ∅ (Some 0%nat)) parent_proxy) 7%Z _).
  discriminate.
Defined.

Lemma restamped_record_changes_owner_witness :
  (checkout 7 1%nat
     (connect 7 1%nat (checkout 7 0%nat parent_record parent_proxy).1.2)
     (checkout 7 0%nat parent_record parent_proxy).2).1.1
  = None.
Proof.
  refine (f_equal (fun r => r.1.1)
            (proj1 (proj2 (proj2
               (restamped_record_changes_owner 5 7 0%nat 1%nat
                  (mkRecord ∅ (Some 0%nat)) parent_proxy _))))).
  discriminate.
Defined.
